(** * fetch_prices.py: price fetch and TokenConfig line printer

    A shallow embedding of [script/fetch_prices.py] and the properties
    its specification states about it.

    The script holds two static tables ([TOKENS], [COINGECKO_IDS]), asks
    the price endpoint once for all provider identifiers, turns each USD
    quote into a [Decimal], scales it by [10**18], and prints one
    [tokens.push(TokenConfig(...));] line per token.

    Conventions of the embedding:
    - Python [str] values are [string]s whose characters are the code
      points below 256;
    - Python [int] is [Z]; a Python [float] is kept as the text [str]
      gives for it, the only thing the script ever does with one;
    - a [dict] is a [gmap] with string keys;
    - a computation that may raise returns a [result]; what the script
      has printed when it raises is kept next to the exception. *)

From Stdlib Require Import ZArith QArith Qround Qpower String Ascii.
From Stdlib Require Import DecimalString DecimalPos DecimalZ Lia Lqa.
From stdpp Require Import gmap strings list fin_maps.

#[local] Set Warnings "-register-all,-clear-no-such-hyp".
#[local] Open Scope Z_scope.

(** ** Exceptions and the error monad *)

Inductive exn : Type :=
| ConnectionError                (* requests.get could not reach the endpoint *)
| ReadTimeout                    (* requests.get timed out *)
| JSONDecodeError                (* Response.json() on a body that is not JSON *)
| KeyError (key : string)        (* dict subscript with a missing key *)
| TypeError                      (* subscript or [in] on a value without it *)
| InvalidOperation               (* decimal.InvalidOperation *)
| DecimalOverflow                (* decimal.Overflow *)
| ValueError                     (* int(NaN); str of an int beyond the digit limit *)
| OverflowError.                 (* int(Infinity) *)

Inductive result (A : Type) : Type :=
| Ok (a : A)
| Raise (e : exn).
Arguments Ok {A} a.
Arguments Raise {A} e.

#[global] Instance result_ret : MRet result := λ A, Ok.

#[global] Instance result_bind : MBind result := λ A B k r,
  match r with
  | Ok a => k a
  | Raise e => Raise e
  end.

(** ** JSON values, as [Response.json()] hands them to the script *)

Inductive json : Type :=
| JNull
| JBool (b : bool)
| JInt (n : Z)
| JFloat (repr : string)
| JStr (s : string)
| JArr (items : list json)
| JObj (fields : gmap string json).

(** ** Characters and digit strings *)

Definition code (c : ascii) : N := N_of_ascii c.

Definition is_digit (c : ascii) : bool :=
  ((48 <=? code c) && (code c <=? 57))%N.

(** [str.isspace] on the code points below 256. *)
Definition is_space (c : ascii) : bool :=
  (((9 <=? code c) && (code c <=? 13)) || ((28 <=? code c) && (code c <=? 32))
   || (code c =? 133) || (code c =? 160))%N.

Definition lower (c : ascii) : ascii :=
  if ((65 <=? code c) && (code c <=? 90))%N then ascii_of_N (code c + 32) else c.

Fixpoint lstrip (l : list ascii) : list ascii :=
  match l with
  | c :: r => if is_space c then lstrip r else l
  | [] => []
  end.

Definition strip (l : list ascii) : list ascii :=
  rev (lstrip (rev (lstrip l))).

Fixpoint span_digits (l : list ascii) : list ascii * list ascii :=
  match l with
  | c :: r =>
      if is_digit c then let '(d, t) := span_digits r in (c :: d, t) else ([], l)
  | [] => ([], [])
  end.

Definition digits_value (d : list ascii) : N :=
  fold_left (λ n c, 10 * n + (code c - 48))%N d 0%N.

(** Number of decimal digits of [n], that is [len(str(n))]; 1 for 0. *)
Fixpoint ndigits_fuel (fuel : nat) (n : N) : Z :=
  match fuel with
  | O => 1
  | S f => if (n <? 10)%N then 1 else 1 + ndigits_fuel f (n / 10)%N
  end.

Definition ndigits (n : N) : Z := ndigits_fuel (N.to_nat (N.log2 n)) n.

(** ** str() of an int

    CPython (3.11 and later, and the maintenance releases of older
    branches) refuses to convert an int of more than 4300 digits to
    text and raises ValueError. *)

Definition int_max_str_digits : Z := 4300.

Definition str_int (z : Z) : result string :=
  if int_max_str_digits <? ndigits (Z.abs_N z) then Raise ValueError
  else Ok (NilZero.string_of_int (Z.to_int z)).

(** ** decimal.Decimal

    A finite Decimal is [(-1)^sign * coeff * 10^exp].  The diagnostic
    payload of a NaN plays no part in the script and is left out. *)

Inductive Decimal : Type :=
| Finite (sign : bool) (coeff : N) (exp : Z)
| Infinity (sign : bool)
| NaN (sign : bool) (signaling : bool).

(** The context after [getcontext().prec = 50]: the default context with
    the precision raised; rounding is ROUND_HALF_EVEN, Overflow and
    InvalidOperation are trapped, Underflow is not. *)
Definition prec : Z := 50.
Definition Emax : Z := 999999.
Definition Emin : Z := -999999.
Definition Etiny : Z := Emin - prec + 1.
Definition Etop : Z := Emax - prec + 1.

(** *** Decimal(text) *)

Definition parse_sign (l : list ascii) : bool * list ascii :=
  match l with
  | "-"%char :: r => (true, r)
  | "+"%char :: r => (false, r)
  | _ => (false, l)
  end.

Definition all_digits (l : list ascii) : bool := forallb is_digit l.

(** The optional exponent, up to the end of the text: the letter E, an
    optional sign, at least one digit. *)
Definition parse_exponent (l : list ascii) : option Z :=
  match l with
  | [] => Some 0
  | c :: r =>
      if Ascii.eqb (lower c) "e" then
        let '(neg, r') := parse_sign r in
        match r' with
        | [] => None
        | _ :: _ =>
            if all_digits r'
            then Some (if neg then - Z.of_N (digits_value r') else Z.of_N (digits_value r'))
            else None
        end
      else None
  end.

(** Digits, an optional point and more digits, with at least one digit
    in all, then the exponent. *)
Definition parse_number (l : list ascii) : option (N * Z) :=
  let '(intpart, r) := span_digits l in
  let '(fracpart, r') :=
    match r with
    | "."%char :: t => span_digits t
    | _ => ([], r)
    end in
  match intpart ++ fracpart with
  | [] => None
  | ds =>
      match parse_exponent r' with
      | Some e => Some (digits_value ds, e - Z.of_nat (length fracpart))
      | None => None
      end
  end.

Definition chars (s : string) : list ascii := list_ascii_of_string s.

Definition parse_special (sign : bool) (l : list ascii) : option Decimal :=
  let w := map lower l in
  if bool_decide (w = chars "inf") || bool_decide (w = chars "infinity")
  then Some (Infinity sign)
  else match w with
       | "n"%char :: "a"%char :: "n"%char :: d =>
           if all_digits d then Some (NaN sign false) else None
       | "s"%char :: "n"%char :: "a"%char :: "n"%char :: d =>
           if all_digits d then Some (NaN sign true) else None
       | _ => None
       end.

(** [Decimal(s)]: surrounding whitespace is stripped, underscores are
    dropped, and the rest has to be a numeric string.  The conversion is
    exact: the context precision does not apply to it. *)
Definition Decimal_of_str (s : string) : result Decimal :=
  let l := filter (λ c, c ≠ "_"%char) (strip (chars s)) in
  let '(sign, r) := parse_sign l in
  match parse_number r with
  | Some (c, e) => Ok (Finite sign c e)
  | None =>
      match parse_special sign r with
      | Some d => Ok d
      | None => Raise InvalidOperation
      end
  end.

(** [Decimal(n)] for a Python int. *)
Definition Decimal_of_int (n : Z) : Decimal := Finite (n <? 0) (Z.abs_N n) 0.

(** *** Rounding to the context: [Decimal._fix] *)

Definition rounds_up (c : N) (k : Z) : bool :=
  let unit := (10 ^ Z.to_N k)%N in
  match (2 * (c mod unit) ?= unit)%N with
  | Lt => false
  | Gt => true
  | Eq => N.odd (c / unit)
  end.

Definition dec_fix (sign : bool) (c : N) (e : Z) : result Decimal :=
  if (c =? 0)%N then Ok (Finite sign 0 (Z.min (Z.max e Etiny) Emax))
  else
    let exp_min := ndigits c + e - prec in
    if Etop <? exp_min then Raise DecimalOverflow
    else
      let exp_min := if exp_min <? Etiny then Etiny else exp_min in
      if e <? exp_min then
        let digits := ndigits c + e - exp_min in
        let '(c0, e0) := if digits <? 0 then (1%N, exp_min - 1) else (c, e) in
        let k := exp_min - e0 in
        let kept := (c0 / 10 ^ Z.to_N k)%N in
        let '(coeff, exp_min) :=
          if rounds_up c0 k then
            if prec <? ndigits (kept + 1) then (((kept + 1) / 10)%N, exp_min + 1)
            else ((kept + 1)%N, exp_min)
          else (kept, exp_min) in
        if Etop <? exp_min then Raise DecimalOverflow
        else Ok (Finite sign coeff exp_min)
      else Ok (Finite sign c e).

(** *** [a * b] in the context *)

Definition is_snan (d : Decimal) : bool :=
  match d with NaN _ true => true | _ => false end.

Definition is_zero (d : Decimal) : bool :=
  match d with Finite _ 0%N _ => true | _ => false end.

Definition dsign (d : Decimal) : bool :=
  match d with Finite s _ _ | Infinity s | NaN s _ => s end.

Definition mul (a b : Decimal) : result Decimal :=
  if is_snan a || is_snan b then Raise InvalidOperation
  else
    match a, b with
    | NaN s _, _ => Ok (NaN s false)
    | _, NaN s _ => Ok (NaN s false)
    | Infinity _, _ | _, Infinity _ =>
        if is_zero a || is_zero b then Raise InvalidOperation
        else Ok (Infinity (xorb (dsign a) (dsign b)))
    | Finite sa ca ea, Finite sb cb eb => dec_fix (xorb sa sb) (ca * cb)%N (ea + eb)
    end.

(** *** [int(d)]: the digits after the point are dropped *)

Definition to_int (d : Decimal) : result Z :=
  match d with
  | NaN _ _ => Raise ValueError
  | Infinity _ => Raise OverflowError
  | Finite s c e =>
      let m := if 0 <=? e then Z.of_N c * 10 ^ e else Z.of_N (c / 10 ^ Z.to_N (- e))%N in
      Ok (if s then - m else m)
  end.

(** ** The static tables *)

Definition TOKENS : list (string * string) :=
  [ ("BAT",   "0x02a8db2231f88fee863081aa7baa4b7e3795e84d");
    ("BDX",   "0xc8805760222bd0a26a9cd0517fecd47f8a0f735f");
    ("FIL",   "0x4e248e77ccff9766ec3d836a8219d5dd4b646d1d");
    ("GLM",   "0xec675ef3bd4db1ce1e01990984222636311854d0");
    ("ICP",   "0xb6eb2a1b73bc0d94 02c59c1b092abcec900b3d04");
    ("NEAR",  "0x31d0d71d767ce6b4d92af123476f6db87a4f4249");
    ("NMR",   "0x7ae619fb4025218ba58f0541cc6ebaaefb604769");
    ("SIREN", "0x4221c19e2bebd58a3bc7b8d38c76bdc72644ff9f");
    ("TRAC",  "0x812ce10fb1b923c054c47c0cd93244b45850e6a8");
    ("VANA",  "0x2832bfd3b0141ef7f1452ea1975323153ac0a7c7");
    ("BCH",   "0xbe1e8ce9c2e3125aa4155e360cab1de1d6109239");
    ("COMP",  "0x07c0080711b2e937f32846779ee6c5828b8ab24d");
    ("FRAX",  "0x9babf71cff53a59cbd5aaff768238a60c6ac3f4b");
    ("KAS",   "0x0fe6ef67eff87378f49864e666039387ff8ade4e");
    ("LTC",   "0x0c4ceba4def071a21650e54e598a6602157521cc");
    ("UNI",   "0xf07f3722753db48f1c967d97eefcdd837a247105");
    ("WLFI",  "0x3eefe62cb64e762b2c207a5e901a16e616a0dc7c");
    ("XRP",   "0xef28f15fff0df624c7cafe1fcd59a73f366559ca");
    ("ZEN",   "0xadc745fbaca7d2f6857a19c64f1d0b26094e1033") ]%string.

Definition COINGECKO_IDS_items : list (string * string) :=
  [ ("BAT", "basic-attention-token");
    ("BDX", "beldex");
    ("FIL", "filecoin");
    ("GLM", "golem");
    ("ICP", "internet-computer");
    ("NEAR", "near");
    ("NMR", "numeraire");
    ("SIREN", "siren");
    ("TRAC", "origintrail");
    ("VANA", "vana");
    ("BCH", "bitcoin-cash");
    ("COMP", "compound");
    ("FRAX", "frax");
    ("KAS", "kaspa");
    ("LTC", "litecoin");
    ("UNI", "uniswap");
    ("WLFI", "world-liberty-financial");
    ("XRP", "ripple");
    ("ZEN", "horizen") ]%string.

Definition COINGECKO_IDS : gmap string string := list_to_map COINGECKO_IDS_items.

(** ** The price endpoint

    What [requests.get(url)] does is the environment's choice: it raises,
    or it returns a response with a status code and a body.  The script
    calls [.json()] on the response straight away, without looking at
    the status code; [.json()] raises when the body is not JSON. *)

Inductive reply : Type :=
| Unreachable (e : exn)
| Response (status_code : Z) (body : option json).

Definition get_json (net : string → reply) (url : string) : result json :=
  match net url with
  | Unreachable e => Raise e
  | Response _ (Some data) => Ok data
  | Response _ None => Raise JSONDecodeError
  end.

(** ** Python operators on the parsed response *)

Fixpoint is_substring (t s : string) : bool :=
  String.prefix t s ||
  match s with
  | String _ r => is_substring t r
  | EmptyString => false
  end.

(** [key in data] *)
Definition py_in (key : string) (data : json) : result bool :=
  match data with
  | JObj fields => Ok (bool_decide (is_Some (fields !! key)))
  | JArr items =>
      Ok (existsb (λ v, match v with JStr s => String.eqb s key | _ => false end) items)
  | JStr s => Ok (is_substring key s)
  | JNull | JBool _ | JInt _ | JFloat _ => Raise TypeError
  end.

(** [v[key]] for a string [key] *)
Definition subscript (v : json) (key : string) : result json :=
  match v with
  | JObj fields =>
      match fields !! key with
      | Some x => Ok x
      | None => Raise (KeyError key)
      end
  | _ => Raise TypeError
  end.

(** [Decimal(str(v))].  The text of a list or of a dict opens with a
    bracket or a brace, which no numeric string does. *)
Definition Decimal_of_json (v : json) : result Decimal :=
  match v with
  | JNull => Decimal_of_str "None"
  | JBool true => Decimal_of_str "True"
  | JBool false => Decimal_of_str "False"
  | JInt n => s ← str_int n; Decimal_of_str s
  | JFloat repr => Decimal_of_str repr
  | JStr s => Decimal_of_str s
  | JArr _ | JObj _ => Raise InvalidOperation
  end.

(** ** fetch_prices *)

Definition request_ids (symbols : list string) : list string :=
  omap (λ s, COINGECKO_IDS !! s) symbols.

Definition request_url (symbols : list string) : string :=
  "https://api.coingecko.com/api/v3/simple/price"
  +:+ "?ids=" +:+ String.concat "," (request_ids symbols) +:+ "&vs_currencies=usd".

(** The body of the loop: the value stored under [sym]. *)
Definition lookup_price (data : json) (sym : string) : result (option Decimal) :=
  match COINGECKO_IDS !! sym with
  | None => Ok None
  | Some EmptyString => Ok None
  | Some cg_id =>
      found ← py_in cg_id data;
      if found : bool then
        record ← subscript data cg_id;
        usd ← subscript record "usd";
        price ← Decimal_of_json usd;
        Ok (Some price)
      else Ok None
  end.

Fixpoint price_loop (data : json) (symbols : list string)
    (prices : gmap string (option Decimal)) : result (gmap string (option Decimal)) :=
  match symbols with
  | [] => Ok prices
  | sym :: rest =>
      p ← lookup_price data sym;
      price_loop data rest (<[sym := p]> prices)
  end.

Definition fetch_prices (net : string → reply) (symbols : list string)
    : result (gmap string (option Decimal)) :=
  data ← get_json net (request_url symbols);
  price_loop data symbols ∅.

(** ** The output loop *)

(** What the script has printed, and the exception that ended it, if any. *)
Record run : Type := Run { stdout : list string; raised : option exn }.

(** [scaled]: the text "None" or an int. *)
Definition scaled_of (p : option Decimal) : result (string + Z) :=
  match p with
  | None => Ok (inl "None"%string)
  | Some d =>
      q ← mul d (Decimal_of_int (10 ^ 18));
      n ← to_int q;
      Ok (inr n)
  end.

(** How the f-string renders [scaled]. *)
Definition format_scaled (scaled : string + Z) : result string :=
  match scaled with
  | inl s => Ok s
  | inr n => str_int n
  end.

Definition dquote : string := String "034" EmptyString.

Definition format_line (symbol address scaled : string) : string :=
  "tokens.push(TokenConfig(" +:+ dquote +:+ symbol +:+ dquote +:+ ", "
  +:+ address +:+ ", " +:+ scaled +:+ ", 18));".

(** One turn of the loop: the line printed for [(symbol, address)]. *)
Definition output_line (prices : gmap string (option Decimal))
    (symbol address : string) : result string :=
  p ← match prices !! symbol with
      | Some p => Ok p
      | None => Raise (KeyError symbol)
      end;
  scaled ← scaled_of p;
  text ← format_scaled scaled;
  Ok (format_line symbol address text).

Fixpoint output_loop (prices : gmap string (option Decimal))
    (tokens : list (string * string)) : run :=
  match tokens with
  | [] => Run [] None
  | (symbol, address) :: rest =>
      match output_line prices symbol address with
      | Raise e => Run [] (Some e)
      | Ok line =>
          let r := output_loop prices rest in
          Run (line :: stdout r) (raised r)
      end
  end.

(** The script, for a table of tokens; [main] is the script itself. *)
Definition script (tokens : list (string * string)) (net : string → reply) : run :=
  let symbols := tokens.*1 in
  match fetch_prices net symbols with
  | Raise e => Run [] (Some e)
  | Ok prices => output_loop prices tokens
  end.

Definition main (net : string → reply) : run := script TOKENS net.

(** * Properties *)

(** ** Vocabulary of the statements *)

Definition signed (sign : bool) (c : N) : Z :=
  if sign then - Z.of_N c else Z.of_N c.

(** The rational number a finite Decimal stands for. *)
Definition Decimal_value (sign : bool) (c : N) (e : Z) : Q :=
  (inject_Z (signed sign c) * 10 ^ e)%Q.

(** [price * 10^18], exactly. *)
Definition exact_product (sign : bool) (c : N) (e : Z) : Q :=
  (Decimal_value sign c e * 10 ^ 18)%Q.

(** Rounding toward zero. *)
Definition Qtrunc (x : Q) : Z :=
  if Qle_bool 0 x then Qfloor x else Qceiling x.

Definition ten18 : N := 1000000000000000000.

(** The base-10 literal of an int: an optional minus sign and the digits,
    without leading zeros. *)
Definition base10 (n : Z) : string := NilZero.string_of_int (Z.to_int n).

(** The price a record of the response quotes: [Decimal(str(record["usd"]))]. *)
Definition quoted_usd (record : json) : result Decimal :=
  usd ← subscript record "usd";
  Decimal_of_json usd.

(** What the line of a token shows for this record, when nothing raises. *)
Definition quoted_text (record : json) : result string :=
  price ← quoted_usd record;
  scaled ← scaled_of (Some price);
  format_scaled scaled.


(** An endpoint that gives the same reply to every request. *)
Definition always (r : reply) : string → reply := λ _, r.

Definition usd_record (v : json) : json := JObj {[ "usd"%string := v ]}.

(** Sample responses. *)
Definition ltc_fields : gmap string json :=
  {[ "litecoin"%string := usd_record (JStr "2.5") ]}.

Definition ltc_response : json := JObj ltc_fields.

Definition no_usd_response : json :=
  JObj {[ "litecoin"%string := JObj ∅ ]}.

Definition rate_limit_body : json :=
  JObj {[ "status"%string :=
            JObj (<[ "error_code"%string := JInt 429 ]>
                    {[ "error_message"%string := JStr "Too Many Requests" ]}) ]}.

(** Every identifier of the table quoted at the same value. *)
Definition every_id_fields (v : json) : gmap string json :=
  list_to_map (map (λ p : string * string, (p.2, usd_record v)) COINGECKO_IDS_items).

Definition every_id (v : json) : json := JObj (every_id_fields v).

(** Facts that are read off a table by evaluating a decision procedure. *)
Ltac by_table := apply (bool_decide_unpack _); by vm_compute.

(** ** Digit counts *)

Lemma ndigits_fuel_bound (fuel : nat) : ∀ (n k : N),
  (n < 10 ^ k)%N → (1 ≤ k)%N → ndigits_fuel fuel n ≤ Z.of_N k.
Proof.
  induction fuel as [|fuel IH]; intros n k Hn Hk; simpl; [lia|].
  destruct (N.ltb_spec n 10) as [|Hge]; [lia|].
  assert (k ≠ 1%N) as Hk1 by (intros ->; change (10 ^ 1)%N with 10%N in Hn; lia).
  replace k with (N.succ (k - 1)) in Hn by lia.
  rewrite N.pow_succ_r' in Hn.
  specialize (IH (n / 10)%N (k - 1)%N).
  assert (n / 10 < 10 ^ (k - 1))%N by (apply N.Div0.div_lt_upper_bound; lia).
  lia.
Qed.

Lemma ndigits_bound (n k : N) :
  (n < 10 ^ k)%N → (1 ≤ k)%N → ndigits n ≤ Z.of_N k.
Proof. apply ndigits_fuel_bound. Qed.

Lemma ndigits_fuel_pos (fuel : nat) (n : N) : 1 ≤ ndigits_fuel fuel n.
Proof.
  revert n; induction fuel as [|fuel IH]; intros n; simpl; [lia|].
  destruct (n <? 10)%N; [lia|]. specialize (IH (n / 10)%N). lia.
Qed.

Lemma ndigits_pos (n : N) : 1 ≤ ndigits n.
Proof. apply ndigits_fuel_pos. Qed.

(** [ndigits] is the length of the decimal numeral: the fuel taken from
    the binary logarithm is always enough. *)
Lemma ndigits_fuel_spec (fuel : nat) : ∀ n : N,
  (0 < n)%N → (N.log2 n ≤ N.of_nat fuel)%N →
  (10 ^ Z.to_N (ndigits_fuel fuel n - 1) ≤ n < 10 ^ Z.to_N (ndigits_fuel fuel n))%N.
Proof.
  induction fuel as [|fuel IH]; intros n Hn Hlog; cbn [ndigits_fuel].
  - assert (n = 1%N) as ->.
    { destruct (N.eq_dec n 1%N) as [|Hne]; [done|]. exfalso.
      assert (2 ≤ n)%N as H2 by lia.
      apply N.log2_le_mono in H2. change (N.log2 2) with 1%N in H2. lia. }
    done.
  - destruct (N.ltb_spec n 10) as [Hlt|Hge].
    + change (Z.to_N (1 - 1)) with 0%N. change (Z.to_N 1) with 1%N.
      change (10 ^ 0)%N with 1%N. change (10 ^ 1)%N with 10%N. lia.
    + assert (0 < n / 10)%N as Hq by (apply N.div_str_pos; lia).
      assert (N.log2 (n / 10) ≤ N.of_nat fuel)%N as Hlog'.
      { assert (n / 10 ≤ n / 2)%N as Hle by (apply N.div_le_compat_l; lia).
        apply N.log2_le_mono in Hle.
        assert (N.log2 (n / 2) = N.log2 n - 1)%N as Hhalf.
        { rewrite <- N.div2_div, N.div2_spec. apply N.log2_shiftr. }
        assert (1 ≤ N.log2 n)%N.
        { change 1%N with (N.log2 2). apply N.log2_le_mono. lia. }
        lia. }
      destruct (IH _ Hq Hlog') as [Hlo Hhi].
      pose proof (ndigits_fuel_pos fuel (n / 10)%N) as Hd.
      replace (Z.to_N (1 + ndigits_fuel fuel (n / 10)%N - 1))
        with (N.succ (Z.to_N (ndigits_fuel fuel (n / 10)%N - 1))) by lia.
      replace (Z.to_N (1 + ndigits_fuel fuel (n / 10)%N))
        with (N.succ (Z.to_N (ndigits_fuel fuel (n / 10)%N))) by lia.
      rewrite !N.pow_succ_r'.
      pose proof (N.Div0.div_mod n 10) as Hdm.
      pose proof (N.mod_lt n 10 ltac:(done)) as Hmod.
      generalize dependent (10 ^ Z.to_N (ndigits_fuel fuel (n / 10)%N - 1))%N.
      generalize dependent (10 ^ Z.to_N (ndigits_fuel fuel (n / 10)%N))%N.
      intros Y Hhi X Hlo. clear IH Hq Hlog'.
      generalize dependent (n / 10)%N. generalize dependent (n mod 10)%N.
      intros r Hr q Hd Hdm Hhi Hlo. split; lia.
Qed.

Lemma ndigits_spec (n : N) :
  (0 < n)%N → (10 ^ Z.to_N (ndigits n - 1) ≤ n < 10 ^ Z.to_N (ndigits n))%N.
Proof. intros Hn. apply ndigits_fuel_spec; [done|]. lia. Qed.

(** ** The product with [10**18] *)

Lemma mul_ten18 (s : bool) (c : N) (e : Z) :
  mul (Finite s c e) (Decimal_of_int (10 ^ 18)) = dec_fix s (c * ten18)%N e.
Proof.
  change (Decimal_of_int (10 ^ 18)) with (Finite false ten18 0).
  cbn [mul is_snan orb]. by rewrite xorb_false_r, Z.add_0_r.
Qed.

(** A coefficient that fits the precision, at an exponent inside the
    context's range, is left as it is. *)
Lemma dec_fix_exact (s : bool) (c : N) (e : Z) :
  c ≠ 0%N → ndigits c ≤ prec → Etiny ≤ e ≤ Etop →
  dec_fix s c e = Ok (Finite s c e).
Proof.
  intros Hc Hd He. unfold dec_fix.
  destruct (N.eqb_spec c 0) as [|_]; [done|].
  unfold prec, Etiny, Etop, Emin, Emax, prec in *.
  repeat (case_match; try lia); try done.
  all: repeat match goal with H : (_ <? _) = _ |- _ => first [apply Z.ltb_lt in H | apply Z.ltb_ge in H] end; try lia.
Qed.

Lemma dec_fix_zero (s : bool) (e : Z) :
  ∃ e', dec_fix s 0 e = Ok (Finite s 0 e').
Proof. unfold dec_fix. simpl. eauto. Qed.

(** ** [int()] rounds toward zero *)

Lemma Qtrunc_comp (x y : Q) : (x == y)%Q → Qtrunc x = Qtrunc y.
Proof.
  intros Hxy. unfold Qtrunc.
  rewrite (Qfloor_comp _ _ Hxy), (Qceiling_comp _ _ Hxy).
  destruct (Qle_bool 0 x) eqn:Hx, (Qle_bool 0 y) eqn:Hy; try done.
  - apply Qle_bool_iff in Hx. rewrite Hxy in Hx. apply Qle_bool_iff in Hx. congruence.
  - apply Qle_bool_iff in Hy. rewrite <- Hxy in Hy. apply Qle_bool_iff in Hy. congruence.
Qed.

Lemma Qtrunc_Z (z : Z) : Qtrunc (inject_Z z) = z.
Proof. unfold Qtrunc. rewrite Qfloor_Z, Qceiling_Z. by destruct (Qle_bool _ _). Qed.

Lemma inject_Z_pos (d : Z) : 0 < d ↔ (0 < inject_Z d)%Q.
Proof. change 0%Q with (inject_Z 0). by rewrite <- Zlt_Qlt. Qed.

Lemma inject_Z_nonneg (a : Z) : 0 ≤ a ↔ (0 <= inject_Z a)%Q.
Proof. change 0%Q with (inject_Z 0). by rewrite <- Zle_Qle. Qed.

Lemma Qtrunc_quot (a d : Z) : 0 < d → Qtrunc (inject_Z a / inject_Z d) = a ÷ d.
Proof.
  intros Hd. unfold Qtrunc.
  assert (0 < inject_Z d)%Q as HdQ by (by apply (proj1 (inject_Z_pos d))).
  destruct (Qle_bool 0 (inject_Z a / inject_Z d)) eqn:Hs.
  - apply Qle_bool_iff in Hs.
    assert (0 ≤ a) as Ha.
    { apply (proj2 (inject_Z_nonneg a)).
      apply (Qmult_le_r _ _ (/ inject_Z d)); [by apply Qinv_lt_0_compat|].
      by rewrite Qmult_0_l. }
    rewrite <- Zdiv_Qdiv. symmetry. apply Z.quot_div_nonneg; lia.
  - assert (a < 0) as Ha.
    { destruct (Z.lt_ge_cases a 0) as [|Ha]; [done|]. exfalso.
      assert (Qle_bool 0 (inject_Z a / inject_Z d) = true); [|congruence].
      apply Qle_bool_iff. apply Qmult_le_0_compat.
      - by apply (proj1 (inject_Z_nonneg a)).
      - apply Qlt_le_weak. by apply Qinv_lt_0_compat. }
    unfold Qceiling.
    assert (- (inject_Z a / inject_Z d) == inject_Z (- a) / inject_Z d)%Q as ->.
    { rewrite inject_Z_opp. unfold Qdiv. ring. }
    rewrite <- Zdiv_Qdiv.
    rewrite <- (Z.quot_div_nonneg (- a) d) by lia.
    rewrite Z.quot_opp_l by lia. lia.
Qed.

Lemma Qpower_10_nonneg (e : Z) : 0 ≤ e → (10 ^ e == inject_Z (10 ^ e))%Q.
Proof. intros He. by rewrite (Zpower_Qpower 10 e He). Qed.

Lemma Qpower_10_neg (e : Z) : e < 0 → (10 ^ e == / inject_Z (10 ^ (- e)))%Q.
Proof.
  intros He. rewrite <- (Z.opp_involutive e) at 1.
  rewrite Qpower_opp. by rewrite Qpower_10_nonneg by lia.
Qed.

Lemma signed_quot (s : bool) (c d : N) :
  d ≠ 0%N → signed s (c / d) = signed s c ÷ Z.of_N d.
Proof.
  intros Hd. unfold signed. rewrite N2Z.inj_div.
  rewrite <- (Z.quot_div_nonneg (Z.of_N c)) by lia.
  destruct s; [|done]. rewrite Z.quot_opp_l by lia. done.
Qed.

(** [int(d)] of a finite Decimal is its value rounded toward zero. *)
Lemma to_int_Qtrunc (s : bool) (c : N) (e : Z) :
  to_int (Finite s c e) = Ok (Qtrunc (Decimal_value s c e)).
Proof.
  unfold to_int, Decimal_value. f_equal.
  destruct (Z.leb_spec 0 e) as [He|He].
  - rewrite (Qtrunc_comp _ (inject_Z (signed s c * 10 ^ e))).
    + rewrite Qtrunc_Z. unfold signed. destruct s; lia.
    + rewrite inject_Z_mult. by rewrite Qpower_10_nonneg.
  - rewrite (Qtrunc_comp _ (inject_Z (signed s c) / inject_Z (10 ^ (- e)))).
    + rewrite Qtrunc_quot by (apply Z.pow_pos_nonneg; lia).
      assert ((10 ^ Z.to_N (- e))%N ≠ 0%N) as Hne by (apply N.pow_nonzero; lia).
      pose proof (signed_quot s c _ Hne) as Hq.
      rewrite N2Z.inj_pow, Z2N.id in Hq by lia.
      change (Z.of_N 10) with 10 in Hq. rewrite <- Hq.
      unfold signed. by destruct s.
    + by rewrite Qpower_10_neg.
Qed.

(** ** Exactness of the scaled value *)

Lemma bind_Ok {A B : Type} (a : A) (k : A → result B) : (Ok a ≫= k) = k a.
Proof. done. Qed.

Lemma signed_mul (s : bool) (c d : N) :
  signed s (c * d) = signed s c * Z.of_N d.
Proof. unfold signed. destruct s; lia. Qed.

Lemma value_mul_ten18 (s : bool) (c : N) (e : Z) :
  (Decimal_value s (c * ten18) e == exact_product s c e)%Q.
Proof.
  unfold exact_product, Decimal_value.
  rewrite signed_mul, inject_Z_mult.
  assert (10 ^ 18 == inject_Z (Z.of_N ten18))%Q as -> by done.
  ring.
Qed.

Lemma value_zero (s : bool) (e : Z) : (Decimal_value s 0 e == 0)%Q.
Proof.
  unfold Decimal_value.
  assert (signed s 0 = 0) as -> by (by destruct s).
  change (inject_Z 0) with 0%Q. ring.
Qed.

Lemma ten18_digits (c : N) :
  (c < 10 ^ 32)%N → (c * ten18 < 10 ^ 50)%N.
Proof.
  intros Hc. change (10 ^ 50)%N with (10 ^ 32 * ten18)%N.
  apply N.mul_lt_mono_pos_r; [done|exact Hc].
Qed.

(** With at most 32 digits in the coefficient and the exponent inside the
    context's range, the product with [10**18] is exact. *)
Lemma mul_ten18_exact (s : bool) (c : N) (e : Z) :
  c ≠ 0%N → (c < 10 ^ 32)%N → Etiny ≤ e ≤ Etop →
  mul (Finite s c e) (Decimal_of_int (10 ^ 18)) = Ok (Finite s (c * ten18) e).
Proof.
  intros Hc Hlt He. rewrite mul_ten18. apply dec_fix_exact; [|..|done].
  - unfold ten18. lia.
  - apply (ndigits_bound _ 50); [by apply ten18_digits|done].
Qed.

Lemma scaled_of_exact (s : bool) (c : N) (e : Z) :
  (c < 10 ^ 32)%N → Etiny ≤ e ≤ Etop →
  scaled_of (Some (Finite s c e)) = Ok (inr (Qtrunc (exact_product s c e))).
Proof.
  intros Hlt He. unfold scaled_of.
  destruct (N.eq_dec c 0%N) as [->|Hc].
  - rewrite mul_ten18. change (0 * ten18)%N with 0%N.
    destruct (dec_fix_zero s e) as [e' ->].
    rewrite bind_Ok, to_int_Qtrunc, bind_Ok. do 2 f_equal.
    apply Qtrunc_comp. rewrite value_zero.
    unfold exact_product. rewrite value_zero. ring.
  - rewrite mul_ten18_exact by done.
    rewrite bind_Ok, to_int_Qtrunc, bind_Ok. do 2 f_equal.
    apply Qtrunc_comp, value_mul_ten18.
Qed.

(** ** Reading the sign of the exact product *)

Lemma ten_pow_pos (e : Z) : (0 < 10 ^ e)%Q.
Proof. by apply Qpower_0_lt. Qed.


Lemma value_nonneg (c : N) (e : Z) : (0 <= Decimal_value false c e)%Q.
Proof.
  unfold Decimal_value, signed. apply Qmult_le_0_compat.
  - apply (proj1 (inject_Z_nonneg _)). lia.
  - apply Qlt_le_weak, ten_pow_pos.
Qed.

Lemma value_nonpos (c : N) (e : Z) : (Decimal_value true c e <= 0)%Q.
Proof.
  unfold Decimal_value, signed.
  assert (inject_Z (- Z.of_N c) * 10 ^ e == - (inject_Z (Z.of_N c) * 10 ^ e))%Q as ->
    by (rewrite inject_Z_opp; ring).
  apply (Qopp_le_compat 0). apply (value_nonneg c e).
Qed.

Lemma Qtrunc_nonneg (x : Q) : (0 <= x)%Q → Qtrunc x = Qfloor x.
Proof. intros H. unfold Qtrunc. apply Qle_bool_iff in H. by rewrite H. Qed.

Lemma Qtrunc_nonpos (x : Q) : (x <= 0)%Q → Qtrunc x = Qceiling x.
Proof.
  intros H. unfold Qtrunc. destruct (Qle_bool 0 x) eqn:Hx; [|done].
  apply Qle_bool_iff in Hx.
  assert (x == inject_Z 0)%Q as Hz by (by apply Qle_antisym).
  by rewrite (Qfloor_comp _ _ Hz), (Qceiling_comp _ _ Hz), Qfloor_Z, Qceiling_Z.
Qed.


(** ** Rendering an int *)

Lemma str_int_ok (n : Z) :
  ndigits (Z.abs_N n) ≤ int_max_str_digits → str_int n = Ok (base10 n).
Proof.
  intros H. unfold str_int. destruct (Z.ltb_spec int_max_str_digits (ndigits (Z.abs_N n))); [lia|done].
Qed.


Lemma string_of_uint_digits (d : Decimal.uint) :
  all_digits (chars (NilEmpty.string_of_uint d)) = true.
Proof. induction d; simpl; done. Qed.



(** The size of what [int()] returns. *)
Lemma to_int_bound (s : bool) (c : N) (e : Z) (k : N) (n : Z) :
  (c < 10 ^ 50)%N → e ≤ Z.of_N k → to_int (Finite s c e) = Ok n →
  (Z.abs_N n < 10 ^ (50 + k))%N.
Proof.
  intros Hc He [= <-].
  assert (10 ^ 50 ≤ 10 ^ (50 + k))%N as Hmono by (apply N.pow_le_mono_r; lia).
  assert (∀ m : Z, Z.abs_N (if s then - m else m) = Z.abs_N m) as ->
    by (intros m; destruct s; [apply Zabs2N.inj_opp|done]).
  destruct (Z.leb_spec 0 e) as [He0|He0].
  - rewrite <- (Z2N.id e) by lia. rewrite <- (N2Z.inj_pow 10), <- N2Z.inj_mul, Zabs2N.id.
    rewrite N.pow_add_r.
    apply N.lt_le_trans with (10 ^ 50 * 10 ^ Z.to_N e)%N.
    + apply N.mul_lt_mono_pos_r; [|done]. apply N.neq_0_lt_0, N.pow_nonzero. lia.
    + apply N.mul_le_mono_l. apply N.pow_le_mono_r; lia.
  - rewrite Zabs2N.id.
    apply N.le_lt_trans with c; [|lia].
    apply N.Div0.div_le_upper_bound.
    assert (0 < 10 ^ Z.to_N (- e))%N as Hpos by (apply N.neq_0_lt_0, N.pow_nonzero; lia).
    nia.
Qed.

(** ** [Decimal(str(n))] for an int *)

Lemma of_uint_acc_fold (u : Decimal.uint) : ∀ acc : positive,
  fold_left (λ n c, 10 * n + (code c - 48))%N (chars (NilEmpty.string_of_uint u)) (N.pos acc)
    = N.pos (Pos.of_uint_acc u acc).
Proof.
  induction u as [|u IH|u IH|u IH|u IH|u IH|u IH|u IH|u IH|u IH|u IH]; intros acc;
    [done|..]; cbn [NilEmpty.string_of_uint chars list_ascii_of_string fold_left Pos.of_uint_acc];
    rewrite <- IH; f_equal; vm_compute code; lia.
Qed.

Lemma digits_value_uint (u : Decimal.uint) :
  digits_value (chars (NilEmpty.string_of_uint u)) = Pos.of_uint u.
Proof.
  unfold digits_value.
  induction u as [|u IH|u IH|u IH|u IH|u IH|u IH|u IH|u IH|u IH|u IH];
    [done|exact IH|..];
    cbn [NilEmpty.string_of_uint chars list_ascii_of_string fold_left Pos.of_uint];
    apply (of_uint_acc_fold u).
Qed.

Lemma digit_not_space (c : ascii) : is_digit c = true → is_space c = false.
Proof.
  unfold is_digit, is_space. intros [H1 H2]%andb_prop.
  apply N.leb_le in H1, H2.
  repeat match goal with
         | |- context [(?a <=? ?b)%N] => destruct (N.leb_spec a b)
         | |- context [(?a =? ?b)%N] => destruct (N.eqb_spec a b)
         end; try done; lia.
Qed.

Lemma digit_not_underscore (c : ascii) : is_digit c = true → c ≠ "_"%char.
Proof. by intros H ->. Qed.

Lemma lstrip_id (l : list ascii) :
  Forall (λ c, is_space c = false) l → lstrip l = l.
Proof. intros [|c r Hc _]; [done|]. cbn. by rewrite Hc. Qed.

Lemma strip_id (l : list ascii) :
  Forall (λ c, is_space c = false) l → strip l = l.
Proof.
  intros H. unfold strip. rewrite (lstrip_id l H).
  rewrite lstrip_id by (by apply Forall_rev). apply rev_involutive.
Qed.

Lemma filter_underscore_id (l : list ascii) :
  Forall (λ c, c ≠ "_"%char) l → filter (λ c, c ≠ "_"%char) l = l.
Proof.
  induction 1 as [|c r Hc _ IH]; [done|].
  rewrite filter_cons. destruct (decide (c ≠ "_"%char)); [by rewrite IH|done].
Qed.

Lemma span_digits_all (l : list ascii) :
  all_digits l = true → span_digits l = (l, []).
Proof.
  induction l as [|c r IH]; [done|]. cbn.
  intros [Hc Hr]%andb_prop. by rewrite Hc, (IH Hr).
Qed.

Lemma parse_sign_digit (c : ascii) (r : list ascii) :
  is_digit c = true → parse_sign (c :: r) = (false, c :: r).
Proof. destruct c as [[] [] [] [] [] [] [] []]; done. Qed.

Lemma parse_number_digits (l : list ascii) :
  l ≠ [] → all_digits l = true → parse_number l = Some (digits_value l, 0).
Proof.
  intros Hne Hall. unfold parse_number. rewrite (span_digits_all l Hall).
  rewrite app_nil_r. by destruct l.
Qed.

Lemma Decimal_of_str_digits (sign : bool) (l : list ascii) (s : string) :
  l ≠ [] → all_digits l = true →
  chars s = (if sign then "-"%char :: l else l) →
  Decimal_of_str s = Ok (Finite sign (digits_value l) 0).
Proof.
  intros Hne Hall Hs. unfold Decimal_of_str. rewrite Hs.
  assert (Forall (λ c, is_digit c = true) l) as Hd
    by (apply Forall_forall; intros c Hc; unfold all_digits in Hall;
        rewrite forallb_forall in Hall; apply Hall; by apply list_elem_of_In).
  assert (Forall (λ c, is_space c = false) (if sign then "-"%char :: l else l)) as Hsp.
  { destruct sign; [constructor; [done|]|]; eapply Forall_impl; try exact Hd;
      apply digit_not_space. }
  assert (Forall (λ c, c ≠ "_"%char) (if sign then "-"%char :: l else l)) as Hus.
  { destruct sign; [constructor; [done|]|]; eapply Forall_impl; try exact Hd;
      apply digit_not_underscore. }
  rewrite (strip_id _ Hsp), (filter_underscore_id _ Hus).
  destruct sign.
  - cbn [parse_sign]. by rewrite (parse_number_digits l Hne Hall).
  - destruct l as [|c r]; [done|]. inversion Hd as [|? ? Hc _]; subst.
    rewrite (parse_sign_digit c r Hc). by rewrite (parse_number_digits _ Hne Hall).
Qed.

Lemma uint_chars (p : positive) :
  chars (NilEmpty.string_of_uint (Pos.to_uint p)) ≠ [] ∧
  all_digits (chars (NilEmpty.string_of_uint (Pos.to_uint p))) = true ∧
  digits_value (chars (NilEmpty.string_of_uint (Pos.to_uint p))) = N.pos p ∧
  NilZero.string_of_uint (Pos.to_uint p) = NilEmpty.string_of_uint (Pos.to_uint p).
Proof.
  pose proof (DecimalPos.Unsigned.to_uint_nonnil p) as Hnil.
  split_and!.
  - by destruct (Pos.to_uint p).
  - apply string_of_uint_digits.
  - rewrite digits_value_uint. apply DecimalPos.Unsigned.of_to.
  - by destruct (Pos.to_uint p).
Qed.

(** The text of an int converts back to that int, exactly. *)
Lemma Decimal_of_str_base10 (n : Z) :
  Decimal_of_str (base10 n) = Ok (Decimal_of_int n).
Proof.
  destruct n as [|p|p]; [done|..]; unfold base10, Decimal_of_int;
    destruct (uint_chars p) as (Hne & Hall & Hval & Hz); cbn [Z.to_int NilZero.string_of_int].
  - rewrite Hz. rewrite (Decimal_of_str_digits false _ _ Hne Hall eq_refl). by rewrite Hval.
  - rewrite Hz.
    rewrite (Decimal_of_str_digits true _
               (String "-" (NilEmpty.string_of_uint (Pos.to_uint p))) Hne Hall eq_refl).
    by rewrite Hval.
Qed.

Lemma Decimal_of_json_int (n : Z) :
  ndigits (Z.abs_N n) ≤ int_max_str_digits →
  Decimal_of_json (JInt n) = Ok (Decimal_of_int n).
Proof.
  intros Hn. cbn [Decimal_of_json]. rewrite (str_int_ok n Hn), bind_Ok.
  apply Decimal_of_str_base10.
Qed.

(** ** The static tables *)

Lemma COINGECKO_IDS_item (sym id : string) :
  COINGECKO_IDS !! sym = Some id ↔ (sym, id) ∈ COINGECKO_IDS_items.
Proof.
  unfold COINGECKO_IDS. split.
  - apply elem_of_list_to_map_2.
  - apply elem_of_list_to_map_1. by_table.
Qed.

(** No identifier of the table is the empty string, so the truth test on
    [cg_id] only ever rejects a missing entry. *)
Lemma COINGECKO_IDS_nonempty (sym id : string) :
  COINGECKO_IDS !! sym = Some id → id ≠ EmptyString.
Proof.
  intros H%COINGECKO_IDS_item.
  assert (Forall (λ p : string * string, p.2 ≠ EmptyString) COINGECKO_IDS_items) as Hall
    by by_table.
  rewrite Forall_forall in Hall. apply (Hall _ H).
Qed.


(** ** Looking one symbol up *)

Lemma lookup_price_unmapped (data : json) (sym : string) :
  COINGECKO_IDS !! sym = None → lookup_price data sym = Ok None.
Proof. intros H. unfold lookup_price. by rewrite H. Qed.

Lemma lookup_price_dict (fields : gmap string json) (sym id : string) :
  COINGECKO_IDS !! sym = Some id →
  lookup_price (JObj fields) sym =
    match fields !! id with
    | None => Ok None
    | Some record => price ← quoted_usd record; Ok (Some price)
    end.
Proof.
  intros H. unfold lookup_price. rewrite H.
  pose proof (COINGECKO_IDS_nonempty _ _ H) as Hne.
  destruct id as [|a id]; [done|].
  cbn [py_in]. rewrite bind_Ok.
  destruct (fields !! String a id) as [record|] eqn:Hf.
  - rewrite bool_decide_eq_true_2 by eauto.
    cbn [subscript]. rewrite Hf, bind_Ok. unfold quoted_usd.
    destruct (subscript record "usd"); [|done]. cbn.
    by destruct (Decimal_of_json a0).
  - rewrite bool_decide_eq_false_2; [done|]. by intros [? ?].
Qed.

(** ** The loop of [fetch_prices] *)

Lemma price_loop_inv (data : json) (symbols : list string) :
  ∀ (prices0 prices : gmap string (option Decimal)),
  price_loop data symbols prices0 = Ok prices →
  ∀ sym,
    (sym ∈ symbols → ∃ p, lookup_price data sym = Ok p ∧ prices !! sym = Some p) ∧
    (sym ∉ symbols → prices !! sym = prices0 !! sym).
Proof.
  induction symbols as [|s rest IH]; intros prices0 prices Hloop sym.
  - injection Hloop as <-. split; [by intros ?%elem_of_nil|done].
  - cbn [price_loop] in Hloop.
    destruct (lookup_price data s) as [p|] eqn:Hp; [|done].
    rewrite bind_Ok in Hloop. destruct (IH _ _ Hloop sym) as [Hin Hout].
    split.
    + intros Hsym. destruct (decide (sym ∈ rest)) as [|Hn]; [by apply Hin|].
      apply elem_of_cons in Hsym as [->|]; [|done].
      exists p. split; [done|]. rewrite (Hout Hn). apply lookup_insert_eq.
    + intros Hsym. apply not_elem_of_cons in Hsym as [Hne Hn].
      rewrite (Hout Hn). by apply lookup_insert_ne.
Qed.

Lemma price_loop_total (data : json) (symbols : list string) :
  (∀ sym, sym ∈ symbols → ∃ p, lookup_price data sym = Ok p) →
  ∀ prices0, ∃ prices, price_loop data symbols prices0 = Ok prices.
Proof.
  induction symbols as [|s rest IH]; intros Hall prices0; [by eexists|].
  cbn [price_loop]. destruct (Hall s) as [p ->]; [by left|].
  rewrite bind_Ok. apply IH. intros sym Hsym. apply Hall. by right.
Qed.

Lemma price_loop_raise (data : json) (symbols : list string) (sym : string) (e : exn) :
  sym ∈ symbols → lookup_price data sym = Raise e →
  ∀ prices0, ∃ e', price_loop data symbols prices0 = Raise e'.
Proof.
  induction symbols as [|s rest IH]; intros Hsym He prices0; [by apply elem_of_nil in Hsym|].
  cbn [price_loop]. destruct (lookup_price data s) as [p|e0] eqn:Hp; [|by eexists].
  rewrite bind_Ok. apply IH; [|done].
  apply elem_of_cons in Hsym as [->|]; [congruence|done].
Qed.

Lemma price_loop_dom (data : json) (symbols : list string) :
  ∀ (prices0 prices : gmap string (option Decimal)),
  price_loop data symbols prices0 = Ok prices →
  dom prices = list_to_set symbols ∪ dom prices0.
Proof.
  induction symbols as [|s rest IH]; intros prices0 prices Hloop.
  - injection Hloop as <-. set_solver.
  - cbn [price_loop] in Hloop.
    destruct (lookup_price data s) as [p|]; [|done].
    rewrite bind_Ok in Hloop. rewrite (IH _ _ Hloop), dom_insert_L. set_solver.
Qed.

(** ** The output loop *)


Lemma output_loop_done (prices : gmap string (option Decimal))
    (tokens : list (string * string)) (lines : list string) :
  output_loop prices tokens = Run lines None ↔
  Forall2 (λ t line, output_line prices t.1 t.2 = Ok line) tokens lines.
Proof.
  revert lines. induction tokens as [|[sym addr] rest IH]; intros lines.
  - cbn. split.
    + intros [= <-]. constructor.
    + by intros ->%Forall2_nil_inv_l.
  - cbn [output_loop]. split.
    + destruct (output_line prices sym addr) as [l|] eqn:Hl; [|done].
      destruct (output_loop prices rest) as [out r] eqn:Hrest. cbn.
      intros [= <- ->]. constructor; [done|]. by apply IH.
    + intros (l & lines' & Hl & Hrest & ->)%Forall2_cons_inv_l.
      cbn in Hl. rewrite Hl. apply IH in Hrest. by rewrite Hrest.
Qed.



Lemma output_line_quoted (prices : gmap string (option Decimal))
    (sym addr : string) (d : Decimal) (n : Z) :
  prices !! sym = Some (Some d) → scaled_of (Some d) = Ok (inr n) →
  ndigits (Z.abs_N n) ≤ int_max_str_digits →
  output_line prices sym addr = Ok (format_line sym addr (base10 n)).
Proof.
  intros Hp Hs Hn. unfold output_line. rewrite Hp, bind_Ok, Hs, bind_Ok.
  cbn [format_scaled]. by rewrite (str_int_ok _ Hn).
Qed.

(** ** The script as a whole *)

Lemma fetch_prices_reply (net : string → reply) (symbols : list string)
    (status : Z) (data : json) :
  net (request_url symbols) = Response status (Some data) →
  fetch_prices net symbols = price_loop data symbols ∅.
Proof. intros H. unfold fetch_prices, get_json. by rewrite H. Qed.


Lemma script_done (tokens : list (string * string)) (net : string → reply) :
  raised (script tokens net) = None →
  length (stdout (script tokens net)) = length tokens.
Proof.
  unfold script. destruct (fetch_prices net (tokens.*1)) as [prices|]; [|done].
  destruct (output_loop prices tokens) as [lines r] eqn:Hrun. cbn. intros ->.
  apply output_loop_done, Forall2_length in Hrun. done.
Qed.





(** ** C1: one line per token, in the order of the table *)




(** ** C2: the mapping [fetch_prices] returns *)

Lemma fetch_prices_dict (net : string → reply) (symbols : list string)
    (status : Z) (fields : gmap string json) :
  net (request_url symbols) = Response status (Some (JObj fields)) →
  (∀ sym id record, sym ∈ symbols → COINGECKO_IDS !! sym = Some id →
     fields !! id = Some record → ∃ d, quoted_usd record = Ok d) →
  ∃ prices, fetch_prices net symbols = Ok prices ∧
    dom prices = list_to_set symbols ∧
    ∀ sym, sym ∈ symbols →
      (∀ id record, COINGECKO_IDS !! sym = Some id → fields !! id = Some record →
         ∃ d, quoted_usd record = Ok d ∧ prices !! sym = Some (Some d)) ∧
      (COINGECKO_IDS !! sym = None ∨
       (∃ id, COINGECKO_IDS !! sym = Some id ∧ fields !! id = None) →
         prices !! sym = Some None).
Proof.
  intros Hnet Hall. rewrite (fetch_prices_reply _ _ _ _ Hnet).
  assert (∀ sym, sym ∈ symbols → ∃ p, lookup_price (JObj fields) sym = Ok p) as Hok.
  { intros sym Hsym. destruct (COINGECKO_IDS !! sym) as [id|] eqn:Hid.
    - rewrite (lookup_price_dict _ _ _ Hid).
      destruct (fields !! id) as [record|] eqn:Hf; [|by eexists].
      destruct (Hall sym id record Hsym Hid Hf) as [d ->]. by eexists.
    - rewrite (lookup_price_unmapped _ _ Hid). by eexists. }
  destruct (price_loop_total _ _ Hok ∅) as [prices Hloop].
  exists prices. split; [done|]. split.
  - rewrite (price_loop_dom _ _ _ _ Hloop). set_solver.
  - intros sym Hsym.
    destruct (proj1 (price_loop_inv _ _ _ _ Hloop sym) Hsym) as (p & Hp & Hs).
    split.
    + intros id record Hid Hf. rewrite (lookup_price_dict _ _ _ Hid), Hf in Hp.
      destruct (quoted_usd record) as [d|]; [|done].
      injection Hp as <-. by exists d.
    + intros [Hid|(id & Hid & Hf)].
      * rewrite (lookup_price_unmapped _ _ Hid) in Hp. by injection Hp as <-.
      * rewrite (lookup_price_dict _ _ _ Hid), Hf in Hp. by injection Hp as <-.
Qed.

(** A record without a [usd] field is not recorded as absent: the lookup
    raises KeyError, and with it [fetch_prices]. *)
Lemma lookup_price_no_usd (fields record : gmap string json) (sym id : string) :
  COINGECKO_IDS !! sym = Some id → fields !! id = Some (JObj record) →
  record !! "usd"%string = None →
  lookup_price (JObj fields) sym = Raise (KeyError "usd").
Proof.
  intros Hid Hf Hr. rewrite (lookup_price_dict _ _ _ Hid), Hf.
  unfold quoted_usd. cbn [subscript]. by rewrite Hr.
Qed.

Lemma fetch_prices_no_usd (net : string → reply) (symbols : list string) (status : Z)
    (fields record : gmap string json) (sym id : string) :
  net (request_url symbols) = Response status (Some (JObj fields)) →
  sym ∈ symbols → COINGECKO_IDS !! sym = Some id →
  fields !! id = Some (JObj record) → record !! "usd"%string = None →
  ∃ e, fetch_prices net symbols = Raise e.
Proof.
  intros Hnet Hsym Hid Hf Hr. rewrite (fetch_prices_reply _ _ _ _ Hnet).
  eapply price_loop_raise; [done|]. by eapply lookup_price_no_usd.
Qed.




(** ** C3: network failures *)

Lemma status_independent (net : string → reply) (status : Z) (data : json) :
  net (request_url (TOKENS.*1)) = Response status (Some data) →
  main net = main (always (Response 200 (Some data))).
Proof. intros H. unfold main, script, fetch_prices, get_json, always. by rewrite H. Qed.

(** C3, as stated, fails for a non-success status code: the script never
    looks at the status, so a 429 reply whose body is a JSON object is
    processed like any other and every line is printed, with None. *)
Lemma C3_status_429_prints_lines :
  main (always (Response 429 (Some rate_limit_body)))
    = Run (map (λ t, format_line t.1 t.2 "None") TOKENS) None.
Proof. by vm_compute. Qed.

(** C3 (amended): when the request itself fails (connection error,
    timeout: [requests.get] raises) or the body is not JSON, the run ends
    with that error before any line is printed.  The status code of a
    reply plays no part: the run is the one of a 200 reply with the same
    body. *)
Theorem C3_network_failure (net : string → reply) :
  match net (request_url (TOKENS.*1)) with
  | Unreachable e => main net = Run [] (Some e)
  | Response _ None => main net = Run [] (Some JSONDecodeError)
  | Response _ (Some data) => main net = main (always (Response 200 (Some data)))
  end.
Proof.
  unfold main, script, fetch_prices, get_json, always.
  destruct (net (request_url (TOKENS.*1))) as [e|status [data|]]; done.
Qed.

(** ** C6: the litecoin example *)

(** C6: with the response [{"litecoin": {"usd": "2.5"}}] and the table
    entry LTC -> litecoin, whatever the other symbols asked for, the price
    of LTC is present and its scaled value is 2500000000000000000. *)
Theorem C6_ltc_scaled (net : string → reply) (symbols : list string) (status : Z) :
  net (request_url symbols) = Response status (Some ltc_response) →
  "LTC"%string ∈ symbols →
  COINGECKO_IDS !! "LTC"%string = Some "litecoin"%string ∧
  ∃ prices price,
    fetch_prices net symbols = Ok prices ∧
    prices !! "LTC"%string = Some (Some price) ∧
    scaled_of (Some price) = Ok (inr 2500000000000000000).
Proof.
  intros Hnet Hltc. split; [by vm_compute|].
  destruct (fetch_prices_dict net symbols status ltc_fields Hnet) as (prices & Hf & _ & Hp).
  { unfold ltc_fields. intros sym id record _ _ [_ <-]%lookup_singleton_Some.
    by vm_compute; eexists. }
  destruct (proj1 (Hp _ Hltc) "litecoin"%string (usd_record (JStr "2.5")))
    as (d & Hd & Hprice); [by vm_compute..|].
  exists prices, d. split; [done|]. split; [done|].
  vm_compute in Hd. injection Hd as <-. by vm_compute.
Qed.

Lemma C6_ltc_scaled_witness :
  COINGECKO_IDS !! "LTC"%string = Some "litecoin"%string ∧
  ∃ prices price,
    fetch_prices (always (Response 200 (Some ltc_response))) (TOKENS.*1) = Ok prices ∧
    prices !! "LTC"%string = Some (Some price) ∧
    scaled_of (Some price) = Ok (inr 2500000000000000000).
Proof.
  apply (C6_ltc_scaled (always (Response 200 (Some ltc_response))) (TOKENS.*1) 200).
  - reflexivity.
  - by_table.
Defined.

(** The line the script prints for LTC on that response. *)
Example ltc_line :
  stdout (main (always (Response 200 (Some ltc_response)))) !! 14%nat
    = Some (format_line "LTC" "0x0c4ceba4def071a21650e54e598a6602157521cc"
              "2500000000000000000").
Proof. by vm_compute. Qed.

(** ** C7: the empty response *)

(** C7: when the body is the empty object, the script prints the line of
    every token of the table, each showing None, and ends normally. *)
Theorem C7_empty_response (net : string → reply) (status : Z) :
  net (request_url (TOKENS.*1)) = Response status (Some (JObj ∅)) →
  main net = Run (map (λ t, format_line t.1 t.2 "None") TOKENS) None ∧
  length (stdout (main net)) = length TOKENS.
Proof.
  intros Hnet. pose proof (status_independent net status (JObj ∅) Hnet) as ->.
  split; by vm_compute.
Qed.

Lemma C7_empty_response_witness :
  main (always (Response 200 (Some (JObj ∅))))
    = Run (map (λ t, format_line t.1 t.2 "None") TOKENS) None ∧
  length (stdout (main (always (Response 200 (Some (JObj ∅)))))) = length TOKENS.
Proof.
  apply (C7_empty_response (always (Response 200 (Some (JObj ∅)))) 200). reflexivity.
Defined.

(** ** C8: symbols without an identifier *)

Lemma request_ids_elem (symbols : list string) (id : string) :
  id ∈ request_ids symbols ↔ ∃ s, s ∈ symbols ∧ COINGECKO_IDS !! s = Some id.
Proof. unfold request_ids. apply list_elem_of_omap. Qed.




(** ** C9: the template of a line *)



(** ** C4, C5, C10: the scaled value *)

Lemma to_int_zero (s : bool) (e : Z) : to_int (Finite s 0 e) = Ok 0.
Proof. unfold to_int. by destruct (0 <=? e), s. Qed.

(** The scaled value of a price of at most 32 digits at an exponent of at
    most 4250 stays within the digit limit of [str]. *)
Lemma scaled_of_digits (s : bool) (c : N) (e : Z) (n : Z) :
  (c < 10 ^ 32)%N → Etiny ≤ e ≤ 4250 →
  scaled_of (Some (Finite s c e)) = Ok (inr n) →
  ndigits (Z.abs_N n) ≤ int_max_str_digits.
Proof.
  intros Hc He. unfold scaled_of.
  destruct (N.eq_dec c 0%N) as [->|Hc0].
  - rewrite mul_ten18. change (0 * ten18)%N with 0%N.
    destruct (dec_fix_zero s e) as [e' ->].
    rewrite bind_Ok, to_int_zero, bind_Ok. by intros [= <-].
  - rewrite mul_ten18_exact; [|done..|unfold Etop, Emax, prec; lia].
    rewrite bind_Ok. destruct (to_int _) as [m|] eqn:Hm; [|done].
    rewrite bind_Ok. intros [= <-].
    apply (to_int_bound _ _ _ 4250) in Hm; [|by apply ten18_digits|lia].
    apply (ndigits_bound _ (50 + 4250)) in Hm; done.
Qed.

Lemma quoted_text_exact (record : json) (s : bool) (c : N) (e : Z) :
  quoted_usd record = Ok (Finite s c e) →
  (c < 10 ^ 32)%N → Etiny ≤ e ≤ 4250 →
  quoted_text record = Ok (base10 (Qtrunc (exact_product s c e))).
Proof.
  intros Hq Hc He. unfold quoted_text. rewrite Hq, bind_Ok.
  assert (Etiny ≤ e ≤ Etop) as He' by (unfold Etop, Emax, prec; lia).
  pose proof (scaled_of_exact s c e Hc He') as Hs. rewrite Hs, bind_Ok.
  cbn [format_scaled]. apply str_int_ok. by eapply scaled_of_digits.
Qed.

(** An integer quote [n] of at most 32 digits prints [n * 10^18]. *)
Lemma quoted_text_int (n : Z) :
  (Z.abs_N n < 10 ^ 32)%N →
  quoted_text (usd_record (JInt n)) = Ok (base10 (n * 10 ^ 18)).
Proof.
  intros Hn.
  assert (quoted_usd (usd_record (JInt n)) = Ok (Finite (n <? 0) (Z.abs_N n) 0)) as Hq.
  { unfold quoted_usd, usd_record. cbn [subscript].
    rewrite lookup_singleton_eq, bind_Ok. apply Decimal_of_json_int.
    pose proof (ndigits_bound _ 32 Hn). unfold int_max_str_digits. lia. }
  rewrite (quoted_text_exact _ _ _ _ Hq Hn) by (by vm_compute).
  do 2 f_equal. rewrite <- (Qtrunc_Z (n * 10 ^ 18)). apply Qtrunc_comp.
  unfold exact_product, Decimal_value.
  assert (signed (n <? 0) (Z.abs_N n) = n) as ->.
  { unfold signed. destruct (Z.ltb_spec n 0); lia. }
  rewrite inject_Z_mult. change (10 ^ 0)%Q with 1%Q.
  assert (10 ^ 18 == inject_Z (10 ^ 18))%Q as -> by done. ring.
Qed.






(** A negative price whose product is an integer: floor and the script
    agree although the price is negative. *)
Example negative_integer_product :
  scaled_of (Some (Decimal_of_int (-1))) = Ok (inr (-1000000000000000000)) ∧
  Qfloor (exact_product true 1 0) = -1000000000000000000.
Proof. split; by vm_compute. Qed.








(** What the script prints when every identifier is quoted at 2.5. *)
Example all_quoted_lines :
  main (always (Response 200 (Some (every_id (JStr "2.5")))))
    = Run (map (λ t, format_line t.1 t.2 "2500000000000000000") TOKENS) None.
Proof. by vm_compute. Qed.

(** * Further properties of the script *)

(** ** The mapping built by [fetch_prices] *)


Lemma fetch_prices_Ok_inv (net : string → reply) (symbols : list string)
    (prices : gmap string (option Decimal)) :
  fetch_prices net symbols = Ok prices →
  ∃ data, get_json net (request_url symbols) = Ok data ∧
          price_loop data symbols ∅ = Ok prices.
Proof.
  unfold fetch_prices. destruct (get_json net (request_url symbols)) as [data|]; [|done].
  rewrite bind_Ok. by exists data.
Qed.

(** X1: the mapping [fetch_prices] returns has an entry for each input
    symbol and for nothing else; the entry of a symbol is what the body
    of the loop computes for it from the parsed response, wherever the
    symbol stands in the sequence and however often it is repeated. *)
Theorem X1_fetch_prices_entries (net : string → reply) (symbols : list string)
    (prices : gmap string (option Decimal)) :
  fetch_prices net symbols = Ok prices →
  ∃ data, get_json net (request_url symbols) = Ok data ∧
    ∀ sym,
      (sym ∈ symbols → ∃ p, lookup_price data sym = Ok p ∧ prices !! sym = Some p) ∧
      (sym ∉ symbols → prices !! sym = None).
Proof.
  intros (data & Hget & Hloop)%fetch_prices_Ok_inv. exists data. split; [done|].
  intros sym. destruct (price_loop_inv _ _ _ _ Hloop sym) as [Hin Hout].
  split; [done|]. intros Hn. by rewrite (Hout Hn).
Qed.

Lemma X1_fetch_prices_entries_witness :
  ∃ data,
    get_json (always (Response 200 (Some ltc_response)))
      (request_url ["XRP"; "LTC"; "DOGE"; "LTC"]%string) = Ok data ∧
    ∀ sym,
      (sym ∈ ["XRP"; "LTC"; "DOGE"; "LTC"]%string →
         ∃ p, lookup_price data sym = Ok p ∧
              (<[ "XRP"%string := None ]>
                 (<[ "LTC"%string := Some (Finite false 25 (-1)) ]>
                    {[ "DOGE"%string := None ]}) : gmap string (option Decimal)) !! sym = Some p) ∧
      (sym ∉ ["XRP"; "LTC"; "DOGE"; "LTC"]%string →
         (<[ "XRP"%string := None ]>
            (<[ "LTC"%string := Some (Finite false 25 (-1)) ]>
               {[ "DOGE"%string := None ]}) : gmap string (option Decimal)) !! sym = None).
Proof.
  apply (X1_fetch_prices_entries (always (Response 200 (Some ltc_response)))).
  by vm_compute.
Defined.

Lemma price_loop_ext (d1 d2 : json) (symbols : list string) :
  (∀ sym, sym ∈ symbols → lookup_price d1 sym = lookup_price d2 sym) →
  ∀ prices0, price_loop d1 symbols prices0 = price_loop d2 symbols prices0.
Proof.
  induction symbols as [|s rest IH]; intros Hext prices0; [done|].
  cbn [price_loop]. rewrite (Hext s) by (by left).
  destruct (lookup_price d2 s) as [p|]; [|done].
  rewrite !bind_Ok. apply IH. intros sym Hsym. apply Hext. by right.
Qed.

(** X2: the mapping does not depend on the order of the symbols nor on
    repetitions: two sequences with the same members give, on the same
    parsed response, the same mapping. *)
Theorem X2_price_loop_order_free (data : json) (symbols symbols' : list string)
    (prices : gmap string (option Decimal)) :
  (∀ sym, sym ∈ symbols ↔ sym ∈ symbols') →
  price_loop data symbols ∅ = Ok prices →
  price_loop data symbols' ∅ = Ok prices.
Proof.
  intros Hsame Hloop.
  destruct (price_loop_total data symbols') with (prices0 := (∅ : gmap string (option Decimal)))
    as [prices' Hloop'].
  { intros sym Hsym%Hsame.
    destruct (proj1 (price_loop_inv _ _ _ _ Hloop sym) Hsym) as (p & Hp & _). by exists p. }
  rewrite Hloop'. f_equal. apply map_eq. intros sym.
  destruct (price_loop_inv _ _ _ _ Hloop sym) as [Hin Hout].
  destruct (price_loop_inv _ _ _ _ Hloop' sym) as [Hin' Hout'].
  destruct (decide (sym ∈ symbols)) as [Hsym|Hsym].
  - destruct (Hin Hsym) as (p & Hp & ->).
    destruct (Hin' (proj1 (Hsame sym) Hsym)) as (p' & Hp' & ->). congruence.
  - rewrite (Hout Hsym). rewrite Hout'; [done|]. by rewrite <- Hsame.
Qed.

Lemma X2_price_loop_order_free_witness :
  price_loop ltc_response ["LTC"; "DOGE"; "LTC"; "XRP"]%string ∅
    = Ok (<[ "XRP"%string := None ]>
            (<[ "LTC"%string := Some (Finite false 25 (-1)) ]>
               {[ "DOGE"%string := None ]})).
Proof.
  apply (X2_price_loop_order_free ltc_response ["XRP"; "LTC"; "DOGE"]%string).
  - intros sym. rewrite !elem_of_cons, !elem_of_nil. tauto.
  - by vm_compute.
Defined.

(** X3: keys of the response that were not asked for play no part: two
    object responses that agree on the requested identifiers give the
    same result, a mapping or an exception. *)
Theorem X3_unrequested_keys_ignored (f1 f2 : gmap string json) (symbols : list string) :
  (∀ id, id ∈ request_ids symbols → f1 !! id = f2 !! id) →
  price_loop (JObj f1) symbols ∅ = price_loop (JObj f2) symbols ∅.
Proof.
  intros Hagree. apply price_loop_ext. intros sym Hsym.
  destruct (COINGECKO_IDS !! sym) as [id|] eqn:Hid.
  - rewrite !(lookup_price_dict _ _ _ Hid), Hagree; [done|].
    apply request_ids_elem. by exists sym.
  - by rewrite !(lookup_price_unmapped _ _ Hid).
Qed.

Lemma X3_unrequested_keys_ignored_witness :
  price_loop (JObj (<[ "status"%string := JStr "ok" ]> ltc_fields)) ["LTC"; "XRP"]%string ∅
    = price_loop (JObj ltc_fields) ["LTC"; "XRP"]%string ∅.
Proof.
  apply X3_unrequested_keys_ignored.
  intros id Hid. apply lookup_insert_ne. intros <-. revert Hid. by vm_compute; set_solver.
Defined.

(** ** Failures *)

Lemma price_loop_first_error (data : json) (pre post : list string) (sym : string) (e : exn) :
  (∀ s, s ∈ pre → ∃ p, lookup_price data s = Ok p) →
  lookup_price data sym = Raise e →
  ∀ prices0, price_loop data (pre ++ sym :: post) prices0 = Raise e.
Proof.
  induction pre as [|s pre IH]; intros Hpre He prices0; cbn [app price_loop].
  - by rewrite He.
  - destruct (Hpre s) as [p ->]; [by left|]. rewrite bind_Ok.
    apply IH; [|done]. intros s' Hs'. apply Hpre. by right.
Qed.

(** X4: [fetch_prices] stops at the first symbol whose lookup raises and
    raises that exception; the entries computed for the symbols before it
    are lost, no mapping is returned. *)
Theorem X4_fetch_prices_first_error (net : string → reply) (status : Z) (data : json)
    (pre post : list string) (sym : string) (e : exn) :
  net (request_url (pre ++ sym :: post)) = Response status (Some data) →
  (∀ s, s ∈ pre → ∃ p, lookup_price data s = Ok p) →
  lookup_price data sym = Raise e →
  fetch_prices net (pre ++ sym :: post) = Raise e.
Proof.
  intros Hnet Hpre He. rewrite (fetch_prices_reply _ _ _ _ Hnet).
  by apply price_loop_first_error.
Qed.

Lemma X4_fetch_prices_first_error_witness :
  fetch_prices (always (Response 200 (Some no_usd_response)))
    (["XRP"; "DOGE"]%string ++ "LTC"%string :: ["BAT"]%string) = Raise (KeyError "usd").
Proof.
  apply (X4_fetch_prices_first_error _ 200 no_usd_response).
  - reflexivity.
  - intros s Hs. apply elem_of_cons in Hs as [->|Hs]; [by vm_compute; eexists|].
    apply elem_of_cons in Hs as [->|Hs]; [by vm_compute; eexists|].
    by apply elem_of_nil in Hs.
  - by vm_compute.
Defined.

Lemma output_loop_first_error (prices : gmap string (option Decimal))
    (pre post : list (string * string)) (lines : list string)
    (sym addr : string) (e : exn) :
  Forall2 (λ t line, output_line prices t.1 t.2 = Ok line) pre lines →
  output_line prices sym addr = Raise e →
  output_loop prices (pre ++ (sym, addr) :: post) = Run lines (Some e).
Proof.
  intros Hpre He. induction Hpre as [|[s a] line pre lines Hl _ IH]; cbn [app output_loop].
  - by rewrite He.
  - cbn in Hl. by rewrite Hl, IH.
Qed.

(** X5: the lines are printed one by one, so when the conversion of a
    token raises, the lines of the tokens before it have been printed,
    that token and the ones after it print nothing, and the run ends
    with the exception. *)
Theorem X5_partial_output (tokens pre post : list (string * string)) (net : string → reply)
    (prices : gmap string (option Decimal)) (lines : list string)
    (sym addr : string) (e : exn) :
  tokens = pre ++ (sym, addr) :: post →
  fetch_prices net (tokens.*1) = Ok prices →
  Forall2 (λ t line, output_line prices t.1 t.2 = Ok line) pre lines →
  output_line prices sym addr = Raise e →
  script tokens net = Run lines (Some e) ∧ length lines = length pre.
Proof.
  intros -> Hf Hpre He. unfold script. rewrite Hf.
  split; [by apply output_loop_first_error|]. symmetry. by eapply Forall2_length.
Qed.

Lemma X5_partial_output_witness :
  script [("XRP", "0xef"); ("LTC", "0x0c"); ("BAT", "0x02")]%string
    (always (Response 200 (Some (JObj {[ "litecoin"%string := usd_record (JStr "nan") ]}))))
    = Run [format_line "XRP" "0xef" "None"] (Some ValueError) ∧
  length [format_line "XRP" "0xef" "None"] = length [("XRP", "0xef")]%string.
Proof.
  apply (X5_partial_output _ [("XRP", "0xef")]%string [("BAT", "0x02")]%string _
           (<[ "XRP"%string := None ]>
              (<[ "LTC"%string := Some (NaN false false) ]> {[ "BAT"%string := None ]}))
           _ "LTC" "0x0c").
  - reflexivity.
  - by vm_compute.
  - repeat constructor.
  - by vm_compute.
Defined.

(** *** Which exceptions the script can raise *)

Lemma dec_fix_raise (s : bool) (c : N) (e : Z) (x : exn) :
  dec_fix s c e = Raise x → x = DecimalOverflow.
Proof. unfold dec_fix. repeat case_match; congruence. Qed.



Lemma str_int_raise (n : Z) (x : exn) : str_int n = Raise x → x = ValueError.
Proof. unfold str_int. case_match; congruence. Qed.





Lemma price_loop_raise_inv (data : json) (symbols : list string) (x : exn) :
  ∀ prices0, price_loop data symbols prices0 = Raise x →
  ∃ sym, sym ∈ symbols ∧ lookup_price data sym = Raise x.
Proof.
  induction symbols as [|s rest IH]; intros prices0; [done|]. cbn [price_loop].
  destruct (lookup_price data s) as [p|e] eqn:Hp.
  - rewrite bind_Ok. intros (sym & Hsym & Hl)%IH. exists sym. split; [by right|done].
  - intros [= <-]. exists s. split; [by left|done].
Qed.





(** ** Responses of another shape, empty input *)

Lemma lookup_price_not_object (data : json) (sym : string) :
  (∀ fields, data ≠ JObj fields) →
  lookup_price data sym = Ok None ∨ lookup_price data sym = Raise TypeError.
Proof.
  intros Hno. unfold lookup_price.
  destruct (COINGECKO_IDS !! sym) as [[|a id]|]; [by left| |by left].
  destruct data as [| | | | s|items|fields]; cbn [py_in]; try (by right).
  - rewrite bind_Ok. destruct (is_substring _ s); [by right|by left].
  - rewrite bind_Ok. destruct (existsb _ items); [by right|by left].
  - by destruct (Hno fields).
Qed.

(** X7: a body that parses but is not a JSON object never yields a
    price: [fetch_prices] either records every symbol as absent (an array
    or a string in which no requested identifier is found) or raises
    TypeError. *)
Theorem X7_not_an_object (net : string → reply) (symbols : list string)
    (status : Z) (data : json) :
  net (request_url symbols) = Response status (Some data) →
  (∀ fields, data ≠ JObj fields) →
  fetch_prices net symbols = Raise TypeError ∨
  ∃ prices, fetch_prices net symbols = Ok prices ∧
    ∀ sym, sym ∈ symbols → prices !! sym = Some None.
Proof.
  intros Hnet Hno. rewrite (fetch_prices_reply _ _ _ _ Hnet).
  destruct (price_loop data symbols ∅) as [prices|e] eqn:Hloop.
  - right. exists prices. split; [done|]. intros sym Hsym.
    destruct (proj1 (price_loop_inv _ _ _ _ Hloop sym) Hsym) as (p & Hp & ->).
    destruct (lookup_price_not_object data sym Hno) as [H|H]; congruence.
  - left. apply price_loop_raise_inv in Hloop as (sym & _ & Hl).
    destruct (lookup_price_not_object data sym Hno) as [H|H]; congruence.
Qed.

Lemma X7_not_an_object_witness :
  fetch_prices (always (Response 200 (Some (JArr [JStr "bitcoin"; JInt 3]))))
    ["LTC"; "DOGE"]%string = Raise TypeError ∨
  ∃ prices,
    fetch_prices (always (Response 200 (Some (JArr [JStr "bitcoin"; JInt 3]))))
      ["LTC"; "DOGE"]%string = Ok prices ∧
    ∀ sym, sym ∈ ["LTC"; "DOGE"]%string → prices !! sym = Some None.
Proof.
  apply (X7_not_an_object _ _ 200 (JArr [JStr "bitcoin"; JInt 3])).
  - reflexivity.
  - done.
Defined.

(** What the two outcomes look like. *)
Example array_body_all_absent :
  fetch_prices (always (Response 200 (Some (JArr [JStr "bitcoin"; JInt 3]))))
    ["LTC"; "DOGE"]%string
    = Ok (<[ "LTC"%string := None ]> {[ "DOGE"%string := None ]}).
Proof. by vm_compute. Qed.

Example array_body_with_identifier :
  fetch_prices (always (Response 200 (Some (JArr [JStr "litecoin"]))))
    ["LTC"; "DOGE"]%string = Raise TypeError.
Proof. by vm_compute. Qed.

Example null_body :
  main (always (Response 200 (Some JNull))) = Run [] (Some TypeError).
Proof. by vm_compute. Qed.

(** X8: with no symbol at all the request is still made, with an empty
    identifier list; its failure propagates, and any body that parses,
    whatever its shape, gives the empty mapping. *)
Theorem X8_no_symbols (net : string → reply) :
  request_url [] = "https://api.coingecko.com/api/v3/simple/price?ids=&vs_currencies=usd"%string ∧
  match net (request_url []) with
  | Unreachable e => fetch_prices net [] = Raise e ∧ script [] net = Run [] (Some e)
  | Response _ None =>
      fetch_prices net [] = Raise JSONDecodeError ∧ script [] net = Run [] (Some JSONDecodeError)
  | Response _ (Some _) => fetch_prices net [] = Ok ∅ ∧ script [] net = Run [] None
  end.
Proof.
  split; [done|]. unfold script, fetch_prices, get_json. cbn [fmap list_fmap].
  by destruct (net (request_url [])) as [e|status [data|]].
Qed.

(** ** The identifier list of the request *)

(** X9: the identifier list keeps the order and the repetitions of the
    symbols that have an identifier: the list of a concatenation is the
    concatenation of the lists, it pairs off with the mapped symbols in
    order, and it is never longer than the symbol sequence. *)
Theorem X9_request_ids_order (l1 l2 : list string) :
  request_ids (l1 ++ l2) = request_ids l1 ++ request_ids l2 ∧
  Forall2 (λ sym id, COINGECKO_IDS !! sym = Some id)
    (filter (λ sym, is_Some (COINGECKO_IDS !! sym)) l1) (request_ids l1) ∧
  (length (request_ids l1) ≤ length l1)%nat.
Proof.
  unfold request_ids. split; [apply omap_app|]. split.
  - induction l1 as [|s l IH]; [constructor|].
    rewrite filter_cons. cbn [omap list_omap].
    destruct (COINGECKO_IDS !! s) as [id|] eqn:Hid.
    + rewrite decide_True by eauto. by constructor.
    + rewrite decide_False by (by intros [? ?]). done.
  - induction l1 as [|s l IH]; [done|]. cbn [omap list_omap].
    destruct (COINGECKO_IDS !! s); cbn [length]; lia.
Qed.

(** ** Normal end and the number of lines *)

Lemma output_loop_length (prices : gmap string (option Decimal))
    (tokens : list (string * string)) :
  match raised (output_loop prices tokens) with
  | None => length (stdout (output_loop prices tokens)) = length tokens
  | Some _ => length (stdout (output_loop prices tokens)) < length tokens
  end%nat.
Proof.
  induction tokens as [|[s a] rest IH]; [done|]. cbn [output_loop].
  destruct (output_line prices s a); cbn [stdout raised length]; [|lia].
  destruct (raised (output_loop prices rest)); lia.
Qed.

(** X10: for a table that is not empty, the run ends normally exactly
    when it has printed a line for every entry; a run that raises has
    printed fewer lines than the table has entries. *)
Theorem X10_all_lines_iff_done (tokens : list (string * string)) (net : string → reply) :
  tokens ≠ [] →
  (raised (script tokens net) = None ↔
   length (stdout (script tokens net)) = length tokens) ∧
  (is_Some (raised (script tokens net)) →
   (length (stdout (script tokens net)) < length tokens)%nat).
Proof.
  intros Hne. unfold script.
  destruct (fetch_prices net (tokens.*1)) as [prices|e]; cbn [stdout raised].
  - pose proof (output_loop_length prices tokens) as Hlen.
    destruct (raised (output_loop prices tokens)) as [x|].
    + split; [split; [done|lia]|]. by intros _.
    + split; [done|]. by intros [? ?].
  - assert (0 < length tokens)%nat by (destruct tokens; [done|cbn; lia]).
    split; [split; [done|cbn; lia]|]. intros _. cbn. lia.
Qed.

Lemma X10_all_lines_iff_done_witness :
  (raised (script TOKENS (always (Response 200 (Some ltc_response)))) = None ↔
   length (stdout (script TOKENS (always (Response 200 (Some ltc_response))))) = length TOKENS) ∧
  (is_Some (raised (script TOKENS (always (Response 200 (Some ltc_response))))) →
   (length (stdout (script TOKENS (always (Response 200 (Some ltc_response))))) < length TOKENS)%nat).
Proof.
  apply (X10_all_lines_iff_done TOKENS (always (Response 200 (Some ltc_response)))).
  done.
Defined.

(** ** The scaled value *)

Lemma quoted_usd_int (n : Z) :
  (Z.abs_N n < 10 ^ 32)%N → quoted_usd (usd_record (JInt n)) = Ok (Decimal_of_int n).
Proof.
  intros Hn. unfold quoted_usd, usd_record. cbn [subscript].
  rewrite lookup_singleton_eq, bind_Ok. apply Decimal_of_json_int.
  pose proof (ndigits_bound _ 32 Hn). unfold int_max_str_digits. lia.
Qed.

Lemma scaled_of_int (n : Z) :
  (Z.abs_N n < 10 ^ 32)%N → scaled_of (Some (Decimal_of_int n)) = Ok (inr (n * 10 ^ 18)).
Proof.
  intros Hn. unfold Decimal_of_int.
  rewrite (scaled_of_exact _ _ 0 Hn) by (by vm_compute).
  do 2 f_equal. rewrite <- (Qtrunc_Z (n * 10 ^ 18)). apply Qtrunc_comp.
  unfold exact_product, Decimal_value.
  assert (signed (n <? 0) (Z.abs_N n) = n) as ->.
  { unfold signed. destruct (Z.ltb_spec n 0); lia. }
  rewrite inject_Z_mult. change (10 ^ 0)%Q with 1%Q.
  assert (10 ^ 18 == inject_Z (10 ^ 18))%Q as -> by done. ring.
Qed.

(** X11: an integer quote [n] of at most 32 digits goes through
    [Decimal(str(n))] without loss, and its line shows [n * 10^18]: the
    digits of [n] followed by eighteen zeros. *)
Theorem X11_integer_quote (fields : gmap string json) (sym id : string) (n : Z) :
  COINGECKO_IDS !! sym = Some id →
  fields !! id = Some (usd_record (JInt n)) →
  (Z.abs_N n < 10 ^ 32)%N →
  lookup_price (JObj fields) sym = Ok (Some (Decimal_of_int n)) ∧
  ∀ (prices : gmap string (option Decimal)) (addr : string),
    prices !! sym = Some (Some (Decimal_of_int n)) →
    output_line prices sym addr = Ok (format_line sym addr (base10 (n * 10 ^ 18))).
Proof.
  intros Hid Hf Hn. split.
  - by rewrite (lookup_price_dict _ _ _ Hid), Hf, (quoted_usd_int n Hn).
  - intros prices addr Hp.
    apply (output_line_quoted _ _ _ _ _ Hp (scaled_of_int n Hn)).
    apply (scaled_of_digits (n <? 0) (Z.abs_N n) 0); [done|by vm_compute|].
    apply (scaled_of_int n Hn).
Qed.

Lemma X11_integer_quote_witness :
  lookup_price (JObj {[ "ripple"%string := usd_record (JInt 3) ]}) "XRP"
    = Ok (Some (Decimal_of_int 3)) ∧
  ∀ (prices : gmap string (option Decimal)) (addr : string),
    prices !! "XRP"%string = Some (Some (Decimal_of_int 3)) →
    output_line prices "XRP" addr = Ok (format_line "XRP" addr (base10 (3 * 10 ^ 18))).
Proof.
  apply (X11_integer_quote {[ "ripple"%string := usd_record (JInt 3) ]} "XRP" "ripple" 3).
  - reflexivity.
  - reflexivity.
  - reflexivity.
Defined.

Lemma exact_product_comp (s1 s2 : bool) (c1 c2 : N) (e1 e2 : Z) :
  (Decimal_value s1 c1 e1 == Decimal_value s2 c2 e2)%Q →
  (exact_product s1 c1 e1 == exact_product s2 c2 e2)%Q.
Proof. intros H. unfold exact_product. by rewrite H. Qed.

(** X12: the scaled value depends on the value of the price, not on how
    it is written: two quotes that denote the same number (2.5 and 2.50,
    25e-1) give the same scaled value. *)
Theorem X12_same_value_same_scaled (s1 s2 : bool) (c1 c2 : N) (e1 e2 : Z) :
  (c1 < 10 ^ 32)%N → (c2 < 10 ^ 32)%N →
  Etiny ≤ e1 ≤ Etop → Etiny ≤ e2 ≤ Etop →
  (Decimal_value s1 c1 e1 == Decimal_value s2 c2 e2)%Q →
  scaled_of (Some (Finite s1 c1 e1)) = scaled_of (Some (Finite s2 c2 e2)).
Proof.
  intros Hc1 Hc2 He1 He2 Hv.
  rewrite (scaled_of_exact _ _ _ Hc1 He1), (scaled_of_exact _ _ _ Hc2 He2).
  do 2 f_equal. by apply Qtrunc_comp, exact_product_comp.
Qed.

Lemma X12_same_value_same_scaled_witness :
  scaled_of (Some (Finite false 25 (-1))) = scaled_of (Some (Finite false 2500 (-3))).
Proof.
  apply X12_same_value_same_scaled; by vm_compute.
Defined.

Lemma Qtrunc_mono (x y : Q) : (x <= y)%Q → Qtrunc x ≤ Qtrunc y.
Proof.
  intros Hxy. destruct (Qlt_le_dec x 0) as [Hx|Hx], (Qlt_le_dec y 0) as [Hy|Hy].
  - rewrite !Qtrunc_nonpos by (by apply Qlt_le_weak). by apply Qceiling_resp_le.
  - rewrite (Qtrunc_nonpos x) by (by apply Qlt_le_weak). rewrite (Qtrunc_nonneg y Hy).
    transitivity 0.
    + rewrite <- (Qceiling_Z 0). apply Qceiling_resp_le. by apply Qlt_le_weak.
    + rewrite <- (Qfloor_Z 0). by apply Qfloor_resp_le.
  - exfalso. apply (Qlt_irrefl 0). eapply Qle_lt_trans; [exact Hx|].
    eapply Qle_lt_trans; [exact Hxy|exact Hy].
  - rewrite !Qtrunc_nonneg by done. by apply Qfloor_resp_le.
Qed.

Lemma exact_product_mono (s1 s2 : bool) (c1 c2 : N) (e1 e2 : Z) :
  (Decimal_value s1 c1 e1 <= Decimal_value s2 c2 e2)%Q →
  (exact_product s1 c1 e1 <= exact_product s2 c2 e2)%Q.
Proof.
  intros H. unfold exact_product. apply Qmult_le_compat_r; [done|].
  apply Qlt_le_weak, ten_pow_pos.
Qed.

(** X13: scaling keeps the order of prices: a price that is not larger
    than another has a scaled value that is not larger. *)
Theorem X13_scaled_monotone (s1 s2 : bool) (c1 c2 : N) (e1 e2 : Z) :
  (c1 < 10 ^ 32)%N → (c2 < 10 ^ 32)%N →
  Etiny ≤ e1 ≤ Etop → Etiny ≤ e2 ≤ Etop →
  (Decimal_value s1 c1 e1 <= Decimal_value s2 c2 e2)%Q →
  ∃ n1 n2, scaled_of (Some (Finite s1 c1 e1)) = Ok (inr n1) ∧
           scaled_of (Some (Finite s2 c2 e2)) = Ok (inr n2) ∧ n1 ≤ n2.
Proof.
  intros Hc1 Hc2 He1 He2 Hv.
  exists (Qtrunc (exact_product s1 c1 e1)), (Qtrunc (exact_product s2 c2 e2)).
  split; [by apply scaled_of_exact|]. split; [by apply scaled_of_exact|].
  by apply Qtrunc_mono, exact_product_mono.
Qed.

Lemma X13_scaled_monotone_witness :
  ∃ n1 n2, scaled_of (Some (Finite true 15 (-19))) = Ok (inr n1) ∧
           scaled_of (Some (Finite false 25 (-1))) = Ok (inr n2) ∧ n1 ≤ n2.
Proof.
  apply X13_scaled_monotone; by vm_compute.
Defined.

(** X14: the scaled value is less than one unit away from
    [price * 10^18], on the side of zero. *)
Theorem X14_scaled_within_one (s : bool) (c : N) (e : Z) :
  (c < 10 ^ 32)%N → Etiny ≤ e ≤ Etop →
  ∃ n, scaled_of (Some (Finite s c e)) = Ok (inr n) ∧
    (exact_product s c e - 1 < inject_Z n)%Q ∧
    (inject_Z n < exact_product s c e + 1)%Q ∧
    ((0 <= exact_product s c e)%Q → (0 <= inject_Z n <= exact_product s c e)%Q) ∧
    ((exact_product s c e <= 0)%Q → (exact_product s c e <= inject_Z n <= 0)%Q).
Proof.
  intros Hc He. exists (Qtrunc (exact_product s c e)).
  split; [by apply scaled_of_exact|].
  set (x := exact_product s c e).
  assert (∀ z, inject_Z (z + 1) == inject_Z z + 1)%Q as Hplus
    by (intros z; by rewrite inject_Z_plus).
  assert (∀ z, inject_Z (z - 1) == inject_Z z - 1)%Q as Hminus
    by (intros z; unfold Z.sub; rewrite inject_Z_plus, inject_Z_opp; reflexivity).
  assert ((0 <= x)%Q → (0 <= inject_Z (Qfloor x))%Q) as Hf0.
  { intros H. apply (proj1 (inject_Z_nonneg _)). rewrite <- (Qfloor_Z 0).
    by apply Qfloor_resp_le. }
  assert ((x <= 0)%Q → (inject_Z (Qceiling x) <= 0)%Q) as Hc0.
  { intros H. change 0%Q with (inject_Z 0). rewrite <- Zle_Qle. rewrite <- (Qceiling_Z 0).
    by apply Qceiling_resp_le. }
  pose proof (Qfloor_le x) as Hfl. pose proof (Qlt_floor x) as Hfu. rewrite Hplus in Hfu.
  pose proof (Qle_ceiling x) as Hcl. pose proof (Qceiling_lt x) as Hcu. rewrite Hminus in Hcu.
  destruct (Qlt_le_dec x 0) as [Hx|Hx].
  - assert (x <= 0)%Q as Hx' by (by apply Qlt_le_weak).
    rewrite (Qtrunc_nonpos x Hx'). specialize (Hc0 Hx').
    split_and!; try lra; intros H; split; lra.
  - rewrite (Qtrunc_nonneg x Hx). specialize (Hf0 Hx).
    split_and!; try lra; intros H; split; lra.
Qed.

Lemma X14_scaled_within_one_witness :
  ∃ n, scaled_of (Some (Finite true 15 (-19))) = Ok (inr n) ∧
    (exact_product true 15 (-19) - 1 < inject_Z n)%Q ∧
    (inject_Z n < exact_product true 15 (-19) + 1)%Q ∧
    ((0 <= exact_product true 15 (-19))%Q →
     (0 <= inject_Z n <= exact_product true 15 (-19))%Q) ∧
    ((exact_product true 15 (-19) <= 0)%Q →
     (exact_product true 15 (-19) <= inject_Z n <= 0)%Q).
Proof.
  apply X14_scaled_within_one; by vm_compute.
Defined.



(** X16: a price that is present but not a finite number makes its line
    raise instead of printing: a NaN gives ValueError, a signalling NaN
    InvalidOperation (from the multiplication), an infinity
    OverflowError.  Such prices come from quotes like [nan] or [inf],
    which the response may carry as text or as a number. *)
Theorem X16_not_finite_raises (prices : gmap string (option Decimal))
    (sym addr : string) (d : Decimal) :
  prices !! sym = Some (Some d) →
  match d with
  | Finite _ _ _ => ∀ e, output_line prices sym addr = Raise e →
                         e = DecimalOverflow ∨ e = ValueError
  | NaN _ false => output_line prices sym addr = Raise ValueError
  | NaN _ true => output_line prices sym addr = Raise InvalidOperation
  | Infinity _ => output_line prices sym addr = Raise OverflowError
  end.
Proof.
  intros Hp. unfold output_line. rewrite Hp, bind_Ok.
  destruct d as [s c e|s|s [|]]; try done.
  intros x. cbn [scaled_of]. rewrite mul_ten18.
  destruct (dec_fix s (c * ten18) e) as [q|y] eqn:Hfix.
  - rewrite bind_Ok.
    assert (∃ s' c' e', q = Finite s' c' e') as (s' & c' & e' & ->).
    { unfold dec_fix in Hfix. repeat case_match; simplify_eq; eauto. }
    cbn [to_int]. rewrite !bind_Ok. cbn [format_scaled].
    destruct (str_int _) as [text|y] eqn:Ht; [done|].
    intros [= <-]. right. by eapply str_int_raise.
  - intros [= <-]. left. by eapply dec_fix_raise.
Qed.

Lemma X16_not_finite_raises_witness :
  Decimal_of_json (JFloat "nan") = Ok (NaN false false) ∧
  output_line {[ "LTC"%string := Some (NaN false false) ]} "LTC" "0x0c" = Raise ValueError.
Proof.
  split; [reflexivity|].
  apply (X16_not_finite_raises {[ "LTC"%string := Some (NaN false false) ]}
           "LTC" "0x0c" (NaN false false)).
  reflexivity.
Defined.
